(** * convert_image.py: the splash-image header generator

    A shallow embedding of [png_to_cpp_array] from
    [dicomviewerSplashUI_CPP/convert_image.py], and the properties of the
    header text it writes.

    Python values are modelled as follows.
    - [bytes] is [list byte]; iterating it yields the integers 0..255, which
      is [Byte.to_N].
    - [str] is [string]; [+=] on a [str] is [String.append], written [+:+].
    - [len] is [length]; the comparison [i < len(png_data) - 1] is made in
      [Z], as Python makes it, so that an empty input gives [-1].
    - a call either returns a value or raises; the console is the list of
      the lines printed.
    - the world outside the program decides what a path leads to, what is
      there, and which exception a library call meets: it is part of the
      state, and the program reads it through the calls it makes.

    [os.path.basename] cuts at the last ['/'], as [posixpath] does, and a
    text that is written is stored with its characters unchanged. *)

From Stdlib Require Import Ascii Strings.Byte NArith ZArith Lia DecimalString DecimalNat.
From stdpp Require Import gmap strings list.

(** ** Text primitives *)

Module Text.

(** The line feed written as [\n] in the source. *)
Definition nl : string := String "010"%char "".

(** [str(n)] for a non-negative integer: its decimal digits. *)
Definition str_int (n : nat) : string :=
  NilZero.string_of_uint (Nat.to_uint n).

(** [int(s)] restricted to unsigned decimal numerals. *)
Definition int_str (s : string) : option nat :=
  match NilZero.uint_of_string s with
  | Some d => Some (Nat.of_uint d)
  | None => None
  end.

(** One lowercase hexadecimal digit, for [d < 16]. *)
Definition hex_digit (d : N) : ascii :=
  if (d <? 10)%N then ascii_of_N (48 + d) else ascii_of_N (87 + d).

(** The digits of [n] in base 16, most significant first, pushed in front
    of [acc]; [fuel] bounds the number of digits produced. *)
Fixpoint hex_digits (fuel : nat) (n : N) (acc : string) : string :=
  match fuel with
  | O => acc
  | S fuel' =>
      let acc' := String (hex_digit (n mod 16)) acc in
      if (n / 16 =? 0)%N then acc' else hex_digits fuel' (n / 16) acc'
  end.

(** [format(n, "x")]. *)
Definition format_x (n : N) : string :=
  hex_digits (S (N.to_nat (N.log2 n))) n "".

Fixpoint zeros (k : nat) : string :=
  match k with
  | O => ""
  | S k' => String "0"%char (zeros k')
  end.

(** The [0<width>] part of a format specification: pad with ['0'] on the
    left up to [width] characters, never truncating. *)
Definition zero_pad (width : nat) (s : string) : string :=
  zeros (width - String.length s) +:+ s.

(** [format(n, "02x")]. *)
Definition format_02x (n : N) : string := zero_pad 2 (format_x n).

(** [posixpath.basename]: what follows the last ['/'] of the path.
    [cur] is the text read since the last separator. *)
Fixpoint basename_from (cur p : string) : string :=
  match p with
  | "" => cur
  | String c p' =>
      if Ascii.eqb c "/"%char then basename_from "" p'
      else basename_from (cur +:+ String c "") p'
  end.

Definition basename (p : string) : string := basename_from "" p.

End Text.

(** ** The generated text *)

Module Header.
Import Text.

(** The first f-string, lines 16-23 of the source. *)
Definition header_open (name : string) (len : nat) : string :=
  "#ifndef SPLASH_IMAGE_DATA_H" +:+ nl +:+
  "#define SPLASH_IMAGE_DATA_H" +:+ nl +:+
  nl +:+
  "// Auto-generated from " +:+ name +:+ nl +:+
  "// File size: " +:+ str_int len +:+ " bytes" +:+ nl +:+
  nl +:+
  "const unsigned char SPLASH_IMAGE_DATA[] = {" +:+ nl.

(** The closing f-string, lines 33-39 of the source. *)
Definition header_close (len : nat) : string :=
  nl +:+
  "};" +:+ nl +:+
  nl +:+
  "const unsigned int SPLASH_IMAGE_SIZE = " +:+ str_int len +:+ ";" +:+ nl +:+
  nl +:+
  "#endif // SPLASH_IMAGE_DATA_H" +:+ nl.

(** [0x{byte:02x}] without the comma that follows it in the source. *)
Definition byte_literal (b : byte) : string :=
  "0x" +:+ format_02x (Byte.to_N b).

(** One iteration of the loop of lines 26-31: [len] is [len(png_data)],
    [i] the index and [b] the byte given by [enumerate]. *)
Definition loop_step (len : nat) (header_content : string)
    (i : nat) (b : byte) : string :=
  let header_content :=
    if i mod 16 =? 0 then header_content +:+ nl +:+ "    "
    else header_content in
  let header_content := header_content +:+ byte_literal b +:+ "," in
  if (Z.of_nat i <? Z.of_nat len - 1)%Z && negb (i mod 16 =? 15)
  then header_content +:+ " "
  else header_content.

(** The loop over [enumerate(png_data)], from index [i] on. *)
Fixpoint enumerate_loop (len i : nat) (png_data : list byte)
    (header_content : string) : string :=
  match png_data with
  | [] => header_content
  | b :: rest =>
      enumerate_loop len (S i) rest (loop_step len header_content i b)
  end.

(** The value of [header_content] when it is written, given the base name
    of the input path and the bytes read. *)
Definition header_content (name : string) (png_data : list byte) : string :=
  let len := length png_data in
  enumerate_loop len 0 png_data (header_open name len) +:+ header_close len.

(** What the loop alone appends: the array body. *)
Definition array_body (png_data : list byte) : string :=
  enumerate_loop (length png_data) 0 png_data "".

End Header.

(** ** Reading the generated text back *)

Module Reader.
Import Text.

(** [s.split(...)] at every character satisfying [sep]: the fields between
    separators, empty ones included, so the result is never empty. *)
Fixpoint fields (sep : ascii -> bool) (s : string) : list string :=
  match s with
  | "" => [""]
  | String c s' =>
      if sep c then "" :: fields sep s'
      else match fields sep s' with
           | f :: fs => String c f :: fs
           | [] => [String c ""]
           end
  end.

Definition is_newline (c : ascii) : bool := Ascii.eqb c "010"%char.

(** What separates the literals of an initializer list in the output:
    commas, spaces and line feeds. *)
Definition is_separator (c : ascii) : bool :=
  Ascii.eqb c ","%char || Ascii.eqb c " "%char || is_newline c.

Definition nonempty (s : string) : bool :=
  match s with
  | "" => false
  | String _ _ => true
  end.

(** [s.split("\n")]. *)
Definition lines (s : string) : list string := fields is_newline s.

(** The payload lines of an array body: the text after each line feed. *)
Definition payload_lines (body : string) : list string :=
  tail (lines body).

(** The tokens of an array body or of one of its lines. *)
Definition tokens (s : string) : list string :=
  filter (fun t => nonempty t = true) (fields is_separator s).

(** The value of a hexadecimal digit, in either case. *)
Definition hex_value (c : ascii) : option N :=
  let n := N_of_ascii c in
  if (48 <=? n)%N && (n <=? 57)%N then Some (n - 48)%N
  else if (97 <=? n)%N && (n <=? 102)%N then Some (n - 87)%N
  else if (65 <=? n)%N && (n <=? 70)%N then Some (n - 55)%N
  else None.

(** The byte denoted by a token of the shape [0xNN]. *)
Definition parse_literal (t : string) : option byte :=
  match t with
  | String z (String x (String h (String l ""))) =>
      if Ascii.eqb z "0"%char && Ascii.eqb x "x"%char then
        match hex_value h, hex_value l with
        | Some a, Some b => Byte.of_N (16 * a + b)
        | _, _ => None
        end
      else None
  | _ => None
  end.

(** Decoding an array body: every token parsed, in order. *)
Definition decode_array (body : string) : option (list byte) :=
  mapM parse_literal (tokens body).

(** The last character of a text, if any. *)
Fixpoint last_char (s : string) : option ascii :=
  match s with
  | "" => None
  | String c "" => Some c
  | String _ s' => last_char s'
  end.

(** Whether every comma is at the end of its line (followed by a line feed
    or by nothing) or is followed by one space and then a character that is
    not a space. *)
Fixpoint commas_spaced (s : string) : bool :=
  match s with
  | "" => true
  | String c s' =>
      (if Ascii.eqb c ","%char then
         match s' with
         | "" => true
         | String d s'' =>
             is_newline d ||
             (Ascii.eqb d " "%char &&
              match s'' with
              | "" => false
              | String e _ => negb (Ascii.eqb e " "%char)
              end)
         end
       else true) && commas_spaced s'
  end.

(** Every character of [s] satisfies [p]. *)
Fixpoint all_chars (p : ascii -> bool) (s : string) : bool :=
  match s with
  | "" => true
  | String c s' => p c && all_chars p s'
  end.

Definition not_comma (c : ascii) : bool := negb (Ascii.eqb c ","%char).

(** A text that is at the end of a line: nothing, or a line feed first. *)
Definition line_end (t : string) : Prop := t = "" \/ exists t', t = nl +:+ t'.

Definition is_lower_hex_digit (c : ascii) : bool :=
  let n := N_of_ascii c in
  ((48 <=? n)%N && (n <=? 57)%N) || ((97 <=? n)%N && (n <=? 102)%N).

(** The shape [0xhh] with two lowercase hexadecimal digits. *)
Definition literal_shape (t : string) : bool :=
  match t with
  | String z (String x (String h (String l ""))) =>
      Ascii.eqb z "0"%char && Ascii.eqb x "x"%char &&
      is_lower_hex_digit h && is_lower_hex_digit l
  | _ => false
  end.

(** No comma ends the text. *)
Definition no_trailing_comma (body : string) : Prop :=
  last_char body <> Some ","%char.

(** Wherever a comma occurs, it ends a line (nothing or a line feed
    follows) or exactly one space follows it. *)
Definition comma_spacing (body : string) : Prop :=
  forall s1 s2, body = s1 +:+ "," +:+ s2 ->
    line_end s2 \/ exists c t, s2 = " " +:+ String c t /\ c <> " "%char.

(** Spaces and line feeds: what stands between the entries of a body. *)
Definition is_blank (c : ascii) : bool :=
  Ascii.eqb c " "%char || is_newline c.

(** The entries of an array body: the runs of characters between blanks. *)
Definition words (s : string) : list string :=
  filter (fun t => nonempty t = true) (fields is_blank s).

End Reader.

(** ** The layout of the array body, row by row *)

Module Layout.
Import Text Header.

(** The number of rows of 16 needed for [n] elements. *)
Definition row_count (n : nat) : nat := (n + 15) / 16.

(** Row [k] of the input: the bytes at indices [16k] to [16k+15]. *)
Definition row (png_data : list byte) (k : nat) : list byte :=
  take 16 (drop (16 * k) png_data).

Definition rows (png_data : list byte) : list (list byte) :=
  map (row png_data) (seq 0 (row_count (length png_data))).

(** A row as the loop prints it: each literal followed by a comma, one
    space between neighbours. *)
Definition render_row (r : list byte) : string :=
  String.concat " " (map (fun b => byte_literal b +:+ ",") r).

Definition indent : string := "    ".

(** A literal with the comma the loop puts after it. *)
Definition entry (b : byte) : string := byte_literal b +:+ ",".

(** The body as a sequence of rows, each begun by a line feed and the
    indentation. *)
Definition body_of_rows (rs : list (list byte)) : string :=
  String.concat "" (map (fun r => nl +:+ indent +:+ render_row r) rs).

(** What an iteration puts before and after the literal and its comma. *)
Definition before (i : nat) : string :=
  if i mod 16 =? 0 then nl +:+ indent else "".

Definition after (len i : nat) : string :=
  if (Z.of_nat i <? Z.of_nat len - 1)%Z && negb (i mod 16 =? 15)
  then " " else "".

(** A text made of lines, each ended by a line feed. *)
Definition unlines (ls : list string) : string :=
  foldr (fun l rest => l +:+ nl +:+ rest) "" ls.

Definition payload_line (r : list byte) : string := indent +:+ render_row r.

(** The lines of the text the program writes. *)
Definition written_lines (name : string) (png_data : list byte)
    : list string :=
  let n := str_int (length png_data) in
  [ "#ifndef SPLASH_IMAGE_DATA_H";
    "#define SPLASH_IMAGE_DATA_H";
    "";
    "// Auto-generated from " +:+ name;
    "// File size: " +:+ n +:+ " bytes";
    "";
    "const unsigned char SPLASH_IMAGE_DATA[] = {";
    "" ]
  ++ map payload_line (rows png_data)
  ++ [ "};";
       "";
       "const unsigned int SPLASH_IMAGE_SIZE = " +:+ n +:+ ";";
       "";
       "#endif // SPLASH_IMAGE_DATA_H" ].

(** *** The format as the specification gives it

    The payload lines follow the declaration line at once, the literals of
    a line are separated by a comma and a space, and a comma ends every
    line but the last. *)
Definition spec_row (final : bool) (r : list byte) : string :=
  indent +:+ String.concat ", " (map byte_literal r)
    +:+ (if final then "" else ",").

Fixpoint spec_rows (rs : list (list byte)) : list string :=
  match rs with
  | [] => []
  | [r] => [spec_row true r]
  | r :: rs' => spec_row false r :: spec_rows rs'
  end.

Definition spec_lines (name : string) (png_data : list byte)
    : list string :=
  let n := str_int (length png_data) in
  [ "#ifndef SPLASH_IMAGE_DATA_H";
    "#define SPLASH_IMAGE_DATA_H";
    "";
    "// Auto-generated from " +:+ name;
    "// File size: " +:+ n +:+ " bytes";
    "";
    "const unsigned char SPLASH_IMAGE_DATA[] = {" ]
  ++ spec_rows (rows png_data)
  ++ [ "};";
       "";
       "const unsigned int SPLASH_IMAGE_SIZE = " +:+ n +:+ ";";
       "";
       "#endif // SPLASH_IMAGE_DATA_H" ].

Definition spec_format (name : string) (png_data : list byte) : string :=
  unlines (spec_lines name png_data).

End Layout.

(** ** Files, console and exceptions *)

Module OS.
Import Text.

(** An exception raised by a library call: its class and what [str] gives
    for it. Both come from the library, the program only prints them. *)
Record exception := Exception {
  exn_class : string;
  exn_str : string
}.

(** What there is at the end of a path. A regular file has its content, the
    exception that opening and reading it raises, if any (no permission, a
    failing device), and the one that opening it for writing raises, if any.
    A directory has the exception that [open] raises on it. *)
Inductive node :=
| RegularFile (content : list byte) (read_error write_error : option exception)
| Directory (open_error : exception).

(** The world outside the program.
    - [canonical p] names the file the path [p] leads to: two paths lead to
      the same file exactly when their canonical names are equal.
    - [files] tells what is there, by canonical name.
    - [not_found p] is the exception of [open(p, 'rb')] when nothing is
      there.
    - [create_error p] is the exception that [open(p, 'w')] raises when
      nothing is there and the file cannot be created (an empty path, a
      missing parent directory, no permission on it); [None] when it can.
    - [write_fault p text] is the exception that stops [f.write(text)], or
      the closing of the file, once [p] is open for writing (a text that
      cannot be encoded, a full disk), with the bytes the file is left
      with; [None] when the text is written whole.
    - [stdout] holds the lines printed so far. *)
Record world := World {
  canonical : string -> string;
  files : gmap string node;
  not_found : string -> exception;
  create_error : string -> option exception;
  write_fault : string -> string -> option (exception * list byte);
  stdout : list string
}.

(** How a call ends: [return v] or an exception leaving the function. *)
Inductive outcome (A : Type) :=
| Return (v : A)
| Raise (e : exception).
Arguments Return {A} v.
Arguments Raise {A} e.

(** What a path leads to, if anything. *)
Definition node_at (w : world) (path : string) : option node :=
  files w !! canonical w path.

(** The world with other files. *)
Definition with_files (w : world) (fs : gmap string node) : world :=
  World (canonical w) fs (not_found w) (create_error w) (write_fault w)
        (stdout w).

(** [os.path.exists]: true for files and directories alike. *)
Definition path_exists (w : world) (path : string) : bool :=
  match node_at w path with
  | Some _ => true
  | None => false
  end.

(** [with open(path, 'rb') as f: f.read()]. *)
Definition read_binary (w : world) (path : string)
    : exception + list byte :=
  match node_at w path with
  | None => inl (not_found w path)
  | Some (Directory e) => inl e
  | Some (RegularFile content read_error _) =>
      match read_error with
      | Some e => inl e
      | None => inr content
      end
  end.

(** The bytes of a text. Characters are kept as they are: no newline
    translation, as on POSIX. *)
Definition encode (text : string) : list byte :=
  String.list_byte_of_string text.

(** The exception of [open(path, 'w')], if it raises. *)
Definition open_for_writing (w : world) (path : string)
    : option exception :=
  match node_at w path with
  | None => create_error w path
  | Some (Directory e) => Some e
  | Some (RegularFile _ _ write_error) => write_error
  end.

(** The file at [path] created with [content], or its content replaced. *)
Definition put_content (w : world) (path : string) (content : list byte)
    : world :=
  let file :=
    match node_at w path with
    | Some (RegularFile _ read_error write_error) =>
        RegularFile content read_error write_error
    | _ => RegularFile content None None
    end in
  with_files w (<[canonical w path := file]> (files w)).

(** [with open(path, 'w') as f: f.write(text)]. When [open] raises nothing
    has changed. Once the file is open it has been created or emptied: a
    write that fails leaves in it what the world says, a write that succeeds
    the bytes of the text. *)
Definition write_text (w : world) (path text : string)
    : world * option exception :=
  match open_for_writing w path with
  | Some e => (w, Some e)
  | None =>
      match write_fault w path text with
      | Some (e, kept) => (put_content w path kept, Some e)
      | None => (put_content w path (encode text), None)
      end
  end.

(** [print(line)]. *)
Definition print (w : world) (line : string) : world :=
  World (canonical w) (files w) (not_found w) (create_error w)
        (write_fault w) (stdout w ++ [line]).

(** The content of the regular file that [path] leads to, if there is one. *)
Definition file_content (w : world) (path : string) : option (list byte) :=
  match node_at w path with
  | Some (RegularFile content _ _) => Some content
  | _ => None
  end.

End OS.

(** ** The program *)

Module Convert.
Import Text Header OS.

(** [png_to_cpp_array], lines 4-50. The [try] of lines 42-50 encloses the
    write and the two messages after it, nothing before. *)
Definition png_to_cpp_array (png_file_path output_header_path : string)
    (w : world) : world * outcome bool :=
  if negb (path_exists w png_file_path) then
    (print w ("Error: PNG file not found: " +:+ png_file_path),
     Return false)
  else
    match read_binary w png_file_path with
    | inl e => (w, Raise e)
    | inr png_data =>
        let text := header_content (basename png_file_path) png_data in
        match write_text w output_header_path text with
        | (w, None) =>
            let w :=
              print w ("Successfully generated " +:+ output_header_path) in
            let w :=
              print w ("Image size: " +:+ str_int (length png_data)
                       +:+ " bytes") in
            (w, Return true)
        | (w, Some e) =>
            (print w ("Error writing header file: " +:+ exn_str e),
             Return false)
        end
    end.

(** How the process ends: an exit status, or an uncaught exception. *)
Inductive exit :=
| Exit (status : nat)
| Traceback (e : exception).

(** The script body, lines 52-61, with its fixed paths. *)
Definition main (w : world) : world * exit :=
  let png_path := "../CompanySplashScreen.png" in
  let header_path := "splash_image_data.h" in
  match png_to_cpp_array png_path header_path w with
  | (w, Return true) =>
      (print w "Image conversion completed successfully!", Exit 0)
  | (w, Return false) => (print w "Image conversion failed!", Exit 1)
  | (w, Raise e) => (w, Traceback e)
  end.

End Convert.

(** ** The scenario of the seventeen bytes, and some worlds *)

Module Scenario.
Import Text Header Reader Layout OS Convert.

(** The bytes [0x00] to [0x10]. *)
Definition bytes_00_to_10 : list byte :=
  [ x00; x01; x02; x03; x04; x05; x06; x07;
    x08; x09; x0a; x0b; x0c; x0d; x0e; x0f; x10 ].

Definition first_sixteen : list string :=
  [ "0x00"; "0x01"; "0x02"; "0x03"; "0x04"; "0x05"; "0x06"; "0x07";
    "0x08"; "0x09"; "0x0a"; "0x0b"; "0x0c"; "0x0d"; "0x0e"; "0x0f" ].

(** The scenario as the specification words it: two payload lines, the
    second holding [0x10] alone with no comma. *)
Definition two_lines_without_final_comma : Prop :=
  exists l1 l2,
    payload_lines (array_body bytes_00_to_10) = [l1; l2] /\
    tokens l1 = first_sixteen /\
    tokens l2 = ["0x10"] /\
    all_chars not_comma l2 = true /\
    str_int (length bytes_00_to_10) = "17".

Definition no_such_file (p : string) : exception :=
  Exception "FileNotFoundError"
    ("[Errno 2] No such file or directory: '" +:+ p +:+ "'").

(** A world of plain names: every path is its own canonical name, a free
    path can be created and no write fails. *)
Definition plain_world (fs : gmap string node) : world :=
  World (fun p => p) fs no_such_file (fun _ => None) (fun _ _ => None) [].

(** A world with one readable image of two bytes, and the worlds after
    one and after two conversions of it. *)
Definition one_image : world :=
  plain_world {[ "logo.png" := RegularFile [x89; x50] None None ]}.

Definition after_one_run : world :=
  (png_to_cpp_array "logo.png" "out.h" one_image).1.

Definition after_two_runs : world :=
  (png_to_cpp_array "logo.png" "out.h" after_one_run).1.



Definition no_files : world := plain_world empty.

(** The image in a world where the disk is full after ten bytes. *)
Definition disk_full : exception :=
  Exception "OSError" "[Errno 28] No space left on device".

Definition small_disk : world :=
  World (fun p => p)
        {[ "logo.png" := RegularFile [x89; x50] None None ]}
        no_such_file (fun _ => None)
        (fun _ text => Some (disk_full, take 10 (encode text))) [].

(** The image in a world where no file can be created. *)
Definition no_parent : world :=
  World (fun p => p)
        {[ "logo.png" := RegularFile [x89; x50] None None ]}
        no_such_file (fun p => Some (no_such_file p)) (fun _ _ => None) [].

(** The image in a world where [./logo.png] leads to [logo.png]. *)
Definition two_names : world :=
  World (fun p => if String.eqb p "./logo.png" then "logo.png" else p)
        {[ "logo.png" := RegularFile [x89; x50] None None ]}
        no_such_file (fun _ => None) (fun _ _ => None) [].


End Scenario.

(** ** Predicates on texts used further on *)

Module Shape.
Import Text Reader OS.

Definition no_newline (c : ascii) : bool := negb (is_newline c).

End Shape.

(** ** Facts about texts *)

Module TextFacts.
Import Text Reader.

Lemma append_nil_l (s : string) : "" +:+ s = s.
Proof. reflexivity. Qed.

Lemma append_cons c (s t : string) : String c s +:+ t = String c (s +:+ t).
Proof. reflexivity. Qed.

Lemma append_nil_r (s : string) : s +:+ "" = s.
Proof.
  induction s as [|c s IH]; [done|]. by rewrite append_cons, IH.
Qed.

Lemma append_assoc (s t u : string) : (s +:+ t) +:+ u = s +:+ t +:+ u.
Proof.
  induction s as [|c s IH]; [done|]. by rewrite !append_cons, IH.
Qed.

Lemma all_chars_app p s t :
  all_chars p (s +:+ t) = all_chars p s && all_chars p t.
Proof.
  induction s as [|c s IH]; [done|].
  rewrite append_cons. simpl. by rewrite IH, andb_assoc.
Qed.

Lemma fields_nonempty sep s : fields sep s <> [].
Proof.
  destruct s as [|c s]; simpl; [done|].
  destruct (sep c); [done|]. by destruct (fields sep s).
Qed.

(** A run of separators in front adds one empty field per separator. *)
Lemma fields_separators sep s t :
  all_chars sep s = true ->
  fields sep (s +:+ t) = replicate (String.length s) "" ++ fields sep t.
Proof.
  induction s as [|c s IH]; [done|].
  intros [Hc Hs]%andb_prop. rewrite append_cons. simpl.
  rewrite Hc. by rewrite IH.
Qed.

(** A run without separator in front extends the first field. *)
Lemma fields_word sep s t :
  all_chars (fun c => negb (sep c)) s = true ->
  fields sep (s +:+ t) =
    match fields sep t with
    | f :: fs => (s +:+ f) :: fs
    | [] => [s]
    end.
Proof.
  induction s as [|c s IH].
  - intros _. rewrite append_nil_l. pose proof (fields_nonempty sep t).
    by destruct (fields sep t).
  - intros [Hc Hs]%andb_prop. apply negb_true_iff in Hc.
    rewrite append_cons. simpl. rewrite Hc.
    rewrite (IH Hs). pose proof (fields_nonempty sep t).
    by destruct (fields sep t).
Qed.

Lemma tokens_separators s t :
  all_chars is_separator s = true -> tokens (s +:+ t) = tokens t.
Proof.
  intros Hs. unfold tokens. rewrite (fields_separators _ _ _ Hs).
  rewrite filter_app. induction (String.length s) as [|k IH]; [done|].
  simpl. by rewrite filter_cons_False by (simpl; congruence).
Qed.

(** A word followed by a separator is a token of its own. *)
Lemma tokens_word s c t :
  all_chars (fun c => negb (is_separator c)) s = true ->
  nonempty s = true -> is_separator c = true ->
  tokens (s +:+ String c t) = s :: tokens t.
Proof.
  intros Hs Hne Hc. unfold tokens. rewrite (fields_word _ _ _ Hs).
  cbn [fields]. rewrite Hc, append_nil_r.
  by rewrite filter_cons_True by done.
Qed.

Lemma str_int_roundtrip (n : nat) : int_str (str_int n) = Some n.
Proof.
  unfold int_str, str_int.
  pose proof (DecimalNat.Unsigned.to_of (Nat.to_uint n)) as Hn.
  rewrite DecimalNat.Unsigned.of_to in Hn.
  rewrite NilZero.usu.
  - by rewrite DecimalNat.Unsigned.of_to.
  - rewrite Hn. apply DecimalFacts.unorm_nonnil.
Qed.

End TextFacts.

(** ** Facts about the loop *)

Module LoopFacts.
Import Text Header Reader Layout TextFacts.

(** The shape of a literal; each fact is checked on the 256 bytes. *)
Lemma byte_literal_digits (b : byte) :
  byte_literal b =
    String "0" (String "x"
      (String (hex_digit (Byte.to_N b / 16))
         (String (hex_digit (Byte.to_N b mod 16)) ""))).
Proof. destruct b; vm_compute; reflexivity. Qed.

Lemma byte_literal_word (b : byte) :
  all_chars (fun c => negb (is_separator c)) (byte_literal b) = true.
Proof. destruct b; vm_compute; reflexivity. Qed.

Lemma byte_literal_no_newline (b : byte) :
  all_chars (fun c => negb (is_newline c)) (byte_literal b) = true.
Proof. destruct b; vm_compute; reflexivity. Qed.

Lemma byte_literal_nonempty (b : byte) : nonempty (byte_literal b) = true.
Proof. by rewrite byte_literal_digits. Qed.

Lemma parse_byte_literal (b : byte) : parse_literal (byte_literal b) = Some b.
Proof. destruct b; vm_compute; reflexivity. Qed.

Lemma loop_step_eq len hc i b :
  loop_step len hc i b =
    hc +:+ before i +:+ byte_literal b +:+ "," +:+ after len i.
Proof.
  unfold loop_step, before, after, indent.
  destruct (i mod 16 =? 0);
    destruct ((Z.of_nat i <? Z.of_nat len - 1)%Z && negb (i mod 16 =? 15));
    rewrite ?append_assoc, ?append_nil_l, ?append_nil_r; reflexivity.
Qed.

Lemma enumerate_loop_acc len i l hc :
  enumerate_loop len i l hc = hc +:+ enumerate_loop len i l "".
Proof.
  revert i hc. induction l as [|b l IH]; intros i hc; simpl.
  - by rewrite append_nil_r.
  - rewrite IH, (IH _ (loop_step len "" i b)).
    rewrite (loop_step_eq len hc), (loop_step_eq len "").
    by rewrite append_nil_l, !append_assoc.
Qed.

Lemma enumerate_loop_cons len i b l :
  enumerate_loop len i (b :: l) "" =
    before i +:+ byte_literal b +:+ "," +:+ after len i
      +:+ enumerate_loop len (S i) l "".
Proof.
  simpl. rewrite enumerate_loop_acc, loop_step_eq.
  by rewrite append_nil_l, !append_assoc.
Qed.

Lemma before_separators i : all_chars is_separator (before i) = true.
Proof. unfold before. by destruct (i mod 16 =? 0). Qed.

Lemma after_separators len i : all_chars is_separator (after len i) = true.
Proof. unfold after. by destruct (_ && _). Qed.

(** The tokens of what the loop appends are the literals of the bytes it
    visits, in order. *)
Lemma tokens_enumerate_loop len i l :
  tokens (enumerate_loop len i l "") = map byte_literal l.
Proof.
  revert i. induction l as [|b l IH]; intros i; [done|].
  rewrite enumerate_loop_cons.
  rewrite (tokens_separators _ _ (before_separators i)).
  rewrite (append_cons "," ""), append_nil_l.
  rewrite (tokens_word (byte_literal b) "," _
             (byte_literal_word b) (byte_literal_nonempty b) eq_refl).
  rewrite (tokens_separators _ _ (after_separators len i)).
  by rewrite IH.
Qed.

Lemma mapM_parse_literals (l : list byte) :
  mapM parse_literal (map byte_literal l) = Some l.
Proof.
  apply mapM_Some.
  induction l as [|b l IH]; constructor; auto using parse_byte_literal.
Qed.

End LoopFacts.

(** ** The loop prints the rows *)

Module RowFacts.
Import Text Header Reader Layout TextFacts LoopFacts.

Lemma mod16_succ i : i mod 16 < 15 -> S i mod 16 = S (i mod 16).
Proof.
  intros Hi. symmetry. apply (Nat.mod_unique _ _ (i / 16)); [lia|].
  pose proof (Nat.div_mod_eq i 16). lia.
Qed.

Lemma render_row_one b : render_row [b] = byte_literal b +:+ ",".
Proof. reflexivity. Qed.

Lemma render_row_more b b' r :
  render_row (b :: b' :: r) =
    byte_literal b +:+ "," +:+ " " +:+ render_row (b' :: r).
Proof. unfold render_row. simpl. by rewrite append_assoc. Qed.

Lemma after_last len i : len <= S i -> after len i = "".
Proof.
  intros Hi. unfold after.
  by replace (Z.of_nat i <? Z.of_nat len - 1)%Z with false by lia.
Qed.

Lemma after_row_end len i : i mod 16 = 15 -> after len i = "".
Proof.
  intros Hi. unfold after. rewrite Hi. simpl. by rewrite andb_false_r.
Qed.

Lemma after_inside len i : S i < len -> i mod 16 < 15 -> after len i = " ".
Proof.
  intros Hi Hm. unfold after.
  replace (Z.of_nat i <? Z.of_nat len - 1)%Z with true by lia.
  by replace (i mod 16 =? 15) with false
    by (symmetry; apply Nat.eqb_neq; lia).
Qed.

Lemma before_inside i : i mod 16 <> 0 -> before i = "".
Proof.
  intros Hi. unfold before.
  by replace (i mod 16 =? 0) with false by (symmetry; by apply Nat.eqb_neq).
Qed.

Lemma before_row_start i : i mod 16 = 0 -> before i = nl +:+ indent.
Proof. intros Hi. unfold before. by rewrite Hi. Qed.

(** A run of the loop inside one row: [seg] starts at index [i] and either
    fills the row or ends the input. *)
Lemma enumerate_loop_run len seg : forall i rest,
  seg <> [] ->
  i mod 16 + length seg <= 16 ->
  i mod 16 + length seg = 16 \/ rest = [] ->
  len = i + length seg + length rest ->
  enumerate_loop len i (seg ++ rest) "" =
    before i +:+ render_row seg
      +:+ enumerate_loop len (i + length seg) rest "".
Proof.
  induction seg as [|b seg IH]; intros i rest Hne Hfit Hend Hlen; [done|].
  rewrite <- app_comm_cons, enumerate_loop_cons.
  destruct seg as [|b' seg].
  - cbn [length app] in *. rewrite render_row_one.
    replace (i + 1) with (S i) by lia.
    assert (after len i = "") as ->.
    { destruct Hend as [Hfull | ->].
      - apply after_row_end. lia.
      - apply after_last. cbn [length] in Hlen. lia. }
    by rewrite append_nil_l, !append_assoc.
  - rewrite render_row_more.
    cbn [length] in Hfit, Hend, Hlen.
    rewrite after_inside by lia.
    rewrite (IH (S i) rest); [ | done | | | ].
    + rewrite (before_inside (S i)) by (rewrite mod16_succ; lia).
      cbn [length].
      replace (S i + S (length seg)) with (i + S (S (length seg))) by lia.
      by rewrite append_nil_l, !append_assoc.
    + rewrite mod16_succ by lia. cbn [length]. lia.
    + rewrite mod16_succ by lia. cbn [length].
      destruct Hend as [Hfull | ->]; [left; lia | by right].
    + cbn [length]. lia.
Qed.

Lemma body_of_rows_cons r rs :
  body_of_rows (r :: rs) = nl +:+ indent +:+ render_row r +:+ body_of_rows rs.
Proof.
  unfold body_of_rows. destruct rs as [|r' rs]; simpl.
  - by rewrite ?append_assoc, append_nil_r.
  - by rewrite ?append_assoc, append_nil_l.
Qed.

Lemma row_count_small n : 0 < n -> n <= 16 -> row_count n = 1.
Proof.
  intros H0 H16. unfold row_count.
  symmetry. apply (Nat.div_unique _ _ _ (n - 1)); lia.
Qed.

Lemma row_count_step n : row_count (16 + n) = S (row_count n).
Proof.
  unfold row_count.
  replace (16 + n + 15) with (1 * 16 + (n + 15)) by lia.
  by rewrite Nat.div_add_l by lia.
Qed.

Lemma row_drop l k : row l (S k) = row (drop 16 l) k.
Proof.
  unfold row. rewrite drop_drop. f_equal. f_equal. lia.
Qed.

(** From the start of a row on, the loop prints the remaining input row
    by row. *)
Lemma enumerate_loop_rows m : forall l i,
  length l <= 16 * m -> i mod 16 = 0 ->
  enumerate_loop (i + length l) i l "" = body_of_rows (rows l).
Proof.
  induction m as [|m IH]; intros l i Hm Hi.
  - destruct l; [done | simpl in Hm; lia].
  - destruct l as [|b l]; [done|].
    set (d := b :: l) in *.
    assert (0 < length d) as Hpos by (simpl; lia).
    rewrite <- (take_drop 16 d) at 2.
    rewrite (enumerate_loop_run _ (take 16 d) i (drop 16 d)).
    + rewrite (before_row_start i Hi).
      destruct (decide (length d <= 16)) as [Hle | Hgt].
      * rewrite (drop_ge d 16) by done. simpl enumerate_loop.
        unfold rows. rewrite row_count_small by done.
        simpl seq. simpl map. unfold row. simpl drop.
        by rewrite body_of_rows_cons, !append_assoc.
      * rewrite length_take, Nat.min_l by lia.
        replace (i + length d) with (i + 16 + length (drop 16 d))
          by (rewrite length_drop; lia).
        rewrite IH; [ | rewrite length_drop; lia | ].
        2:{ rewrite <- Nat.Div0.add_mod_idemp_l, Hi. done. }
        unfold rows at 2.
        replace (length d) with (16 + length (drop 16 d))
          by (rewrite length_drop; lia).
        rewrite row_count_step. cbn [seq map].
        rewrite <- seq_shift, map_map.
        rewrite (map_ext _ (row (drop 16 d)) (row_drop d)).
        rewrite body_of_rows_cons, !append_assoc.
        unfold row at 1. by simpl drop.
    + subst d. done.
    + rewrite Hi, length_take. lia.
    + rewrite Hi, length_take.
      destruct (decide (length d <= 16)).
      * right. by apply drop_ge.
      * left. lia.
    + rewrite length_take, length_drop. lia.
Qed.

(** The array body is the rows of the input, printed one per line. *)
Lemma array_body_rows (png_data : list byte) :
  array_body png_data = body_of_rows (rows png_data).
Proof.
  unfold array_body.
  apply (enumerate_loop_rows (length png_data) png_data 0); [lia | done].
Qed.

End RowFacts.

(** ** Lines, tokens and commas of the printed rows *)

Module LineFacts.
Import Text Header Reader Layout TextFacts LoopFacts RowFacts.

Lemma byte_literal_no_comma (b : byte) :
  all_chars not_comma (byte_literal b) = true.
Proof. destruct b; vm_compute; reflexivity. Qed.

Lemma render_row_no_newline r :
  all_chars (fun c => negb (is_newline c)) (render_row r) = true.
Proof.
  induction r as [|b r IH]; [done|]. destruct r as [|b' r].
  - rewrite render_row_one, all_chars_app, byte_literal_no_newline. done.
  - rewrite render_row_more, !all_chars_app, byte_literal_no_newline, IH.
    done.
Qed.

Lemma lines_body_of_rows rs :
  lines (body_of_rows rs) = "" :: map payload_line rs.
Proof.
  induction rs as [|r rs IH]; [done|].
  rewrite body_of_rows_cons. unfold lines in *.
  unfold nl. rewrite append_cons, append_nil_l. cbn [fields].
  change (is_newline "010") with true. cbv iota.
  rewrite <- append_assoc, fields_word, IH.
  - by rewrite append_nil_r.
  - by rewrite all_chars_app, render_row_no_newline.
Qed.

Lemma tokens_render_row r : tokens (render_row r) = map byte_literal r.
Proof.
  induction r as [|b r IH]; [done|]. destruct r as [|b' r].
  - rewrite render_row_one. cbn [map].
    by rewrite (tokens_word (byte_literal b) "," ""
                  (byte_literal_word b) (byte_literal_nonempty b) eq_refl).
  - rewrite render_row_more.
    rewrite (append_cons "," ""), append_nil_l.
    rewrite (tokens_word (byte_literal b) "," _
               (byte_literal_word b) (byte_literal_nonempty b) eq_refl).
    rewrite (tokens_separators " " _ eq_refl). by rewrite IH.
Qed.

Lemma tokens_payload_line r :
  tokens (payload_line r) = map byte_literal r.
Proof.
  unfold payload_line. rewrite (tokens_separators indent _ eq_refl).
  apply tokens_render_row.
Qed.

(** ** The rows of an input *)

Lemma length_rows (l : list byte) : length (rows l) = row_count (length l).
Proof. unfold rows. by rewrite length_map, length_seq. Qed.

Lemma rows_lookup (l : list byte) k :
  k < row_count (length l) -> rows l !! k = Some (row l k).
Proof.
  intros Hk. unfold rows. rewrite list_lookup_fmap, lookup_seq_lt by done.
  done.
Qed.

Lemma row_count_bounds n :
  16 * row_count n < n + 16 /\ n <= 16 * row_count n.
Proof.
  unfold row_count. pose proof (Nat.div_mod_eq (n + 15) 16).
  pose proof (Nat.mod_upper_bound (n + 15) 16). lia.
Qed.

Lemma length_row_full (l : list byte) k :
  S k < row_count (length l) -> length (row l k) = 16.
Proof.
  intros Hk. unfold row. rewrite length_take, length_drop.
  pose proof (row_count_bounds (length l)). lia.
Qed.

Lemma length_row_bounds (l : list byte) k :
  k < row_count (length l) -> 1 <= length (row l k) <= 16.
Proof.
  intros Hk. unfold row. rewrite length_take, length_drop.
  pose proof (row_count_bounds (length l)). lia.
Qed.

(** ** Commas *)

Lemma commas_spaced_no_comma s t :
  all_chars not_comma s = true -> commas_spaced (s +:+ t) = commas_spaced t.
Proof.
  induction s as [|c s IH]; [done|].
  intros [Hc Hs]%andb_prop. rewrite append_cons. cbn [commas_spaced].
  unfold not_comma in Hc. apply negb_true_iff in Hc. rewrite Hc.
  by rewrite IH.
Qed.

Lemma commas_spaced_comma t :
  commas_spaced ("," +:+ t) =
    match t with
    | "" => true
    | String d t' =>
        is_newline d ||
        (Ascii.eqb d " " &&
         match t' with
         | "" => false
         | String e _ => negb (Ascii.eqb e " ")
         end)
    end && commas_spaced t.
Proof. reflexivity. Qed.

Lemma render_row_head b r t :
  exists u, render_row (b :: r) +:+ t = String "0" u.
Proof.
  destruct r as [|b' r].
  - rewrite render_row_one, byte_literal_digits. eexists. reflexivity.
  - rewrite render_row_more, byte_literal_digits. eexists. reflexivity.
Qed.

Lemma commas_spaced_render_row r t :
  line_end t -> commas_spaced t = true ->
  commas_spaced (render_row r +:+ t) = true.
Proof.
  intros Hend Ht. induction r as [|b r IH]; [done|]. destruct r as [|b' r].
  - rewrite render_row_one, append_assoc.
    rewrite (commas_spaced_no_comma _ _ (byte_literal_no_comma b)).
    rewrite commas_spaced_comma, Ht.
    by destruct Hend as [-> | [t' ->]].
  - rewrite render_row_more, !append_assoc.
    rewrite (commas_spaced_no_comma _ _ (byte_literal_no_comma b)).
    rewrite commas_spaced_comma.
    destruct (render_row_head b' r t) as [u Hu].
    rewrite (append_cons " " ""), append_nil_l.
    cbn [commas_spaced]. rewrite Hu in *. by rewrite IH.
Qed.

Lemma body_of_rows_line_end rs : line_end (body_of_rows rs).
Proof.
  destruct rs as [|r rs]; [by left | right].
  rewrite body_of_rows_cons. by eexists.
Qed.

Lemma commas_spaced_body_of_rows rs : commas_spaced (body_of_rows rs) = true.
Proof.
  induction rs as [|r rs IH]; [done|].
  rewrite body_of_rows_cons, <- append_assoc.
  rewrite (commas_spaced_no_comma (nl +:+ indent) _ eq_refl).
  apply commas_spaced_render_row; [apply body_of_rows_line_end | done].
Qed.

(** What [commas_spaced] checks, said for every occurrence of a comma. *)
Lemma commas_spaced_spec s :
  commas_spaced s = true ->
  forall s1 s2, s = s1 +:+ "," +:+ s2 ->
    s2 = "" \/ (exists t, s2 = nl +:+ t) \/
    (exists c t, s2 = " " +:+ String c t /\ c <> " "%char).
Proof.
  intros Hs s1. revert s Hs.
  induction s1 as [|c s1 IH]; intros s Hs s2 ->.
  - rewrite append_nil_l, commas_spaced_comma in Hs.
    apply andb_prop in Hs as [Hs _].
    destruct s2 as [|d s2]; [by left | right].
    apply orb_prop in Hs as [Hd | Hd].
    + left. apply Ascii.eqb_eq in Hd as ->. by eexists.
    + right. apply andb_prop in Hd as [Hd He].
      apply Ascii.eqb_eq in Hd as ->.
      destruct s2 as [|e s2]; [done|].
      exists e, s2. split; [done|].
      apply negb_true_iff, Ascii.eqb_neq in He. done.
  - rewrite append_cons in Hs. cbn [commas_spaced] in Hs.
    apply andb_prop in Hs as [_ Hs]. by apply (IH _ Hs).
Qed.

(** ** The end of the body *)

Lemma enumerate_loop_app len l1 : forall i l2 hc,
  enumerate_loop len i (l1 ++ l2) hc =
    enumerate_loop len (i + length l1) l2 (enumerate_loop len i l1 hc).
Proof.
  induction l1 as [|b l1 IH]; intros i l2 hc; simpl.
  - by rewrite Nat.add_0_r.
  - rewrite IH. f_equal. lia.
Qed.

(** After the literal of the last byte the loop appends a comma and
    nothing else. *)
Lemma array_body_last init b :
  exists s, array_body (init ++ [b]) = s +:+ byte_literal b +:+ ",".
Proof.
  unfold array_body. rewrite enumerate_loop_app. cbn [enumerate_loop].
  rewrite loop_step_eq, after_last by (rewrite length_app; simpl; lia).
  exists (enumerate_loop (length (init ++ [b])) 0 init ""
            +:+ before (0 + length init)).
  by rewrite append_nil_r, append_assoc.
Qed.

End LineFacts.

(** ** The whole text *)

Module FormatFacts.
Import Text Header Reader Layout TextFacts LoopFacts RowFacts LineFacts.

(** The three parts of the text: opening, array body, closing. *)
Lemma header_content_parts name (png_data : list byte) :
  header_content name png_data =
    header_open name (length png_data) +:+ array_body png_data
      +:+ header_close (length png_data).
Proof.
  unfold header_content, array_body. cbv zeta.
  by rewrite enumerate_loop_acc, append_assoc.
Qed.

Lemma unlines_app ls1 ls2 : unlines (ls1 ++ ls2) = unlines ls1 +:+ unlines ls2.
Proof.
  induction ls1 as [|l ls1 IH]; [done|].
  cbn [app unlines foldr]. fold (unlines (ls1 ++ ls2)). fold (unlines ls1).
  by rewrite IH, !append_assoc.
Qed.

(** The line feed that begins each row ends the line before it. *)
Lemma body_of_rows_unlines rs :
  body_of_rows rs +:+ nl = nl +:+ unlines (map payload_line rs).
Proof.
  induction rs as [|r rs IH]; [done|].
  rewrite body_of_rows_cons. cbn [map unlines foldr].
  fold (unlines (map payload_line rs)).
  rewrite !append_assoc, IH. unfold payload_line.
  by rewrite !append_assoc.
Qed.

Lemma header_content_lines name (png_data : list byte) :
  header_content name png_data = unlines (written_lines name png_data).
Proof.
  rewrite header_content_parts, array_body_rows.
  unfold written_lines. cbv zeta. rewrite !unlines_app.
  unfold header_close. rewrite <- (append_assoc (body_of_rows _) nl).
  rewrite body_of_rows_unlines.
  unfold header_open. cbn [unlines foldr].
  by rewrite !append_assoc, ?append_nil_l, ?append_nil_r.
Qed.

End FormatFacts.

(** ** The entries of the body *)

Module WordFacts.
Import Text Header Reader Layout TextFacts LoopFacts RowFacts LineFacts.

Section NonEmptyFields.
Variable sep : ascii -> bool.

(** A run of separators in front adds no piece. *)
Lemma pieces_separators s t :
  all_chars sep s = true ->
  filter (fun t => nonempty t = true) (fields sep (s +:+ t))
    = filter (fun t => nonempty t = true) (fields sep t).
Proof.
  intros Hs. rewrite (fields_separators _ _ _ Hs).
  rewrite filter_app. induction (String.length s) as [|k IH]; [done|].
  simpl. by rewrite filter_cons_False by (simpl; congruence).
Qed.

(** A word followed by a separator is a piece of its own. *)
Lemma pieces_word s c t :
  all_chars (fun c => negb (sep c)) s = true ->
  nonempty s = true -> sep c = true ->
  filter (fun t => nonempty t = true) (fields sep (s +:+ String c t))
    = s :: filter (fun t => nonempty t = true) (fields sep t).
Proof.
  intros Hs Hne Hc. rewrite (fields_word _ _ _ Hs).
  cbn [fields]. rewrite Hc, append_nil_r.
  by rewrite filter_cons_True by done.
Qed.

(** So is a word at the very end. *)
Lemma pieces_last_word s :
  all_chars (fun c => negb (sep c)) s = true ->
  nonempty s = true ->
  filter (fun t => nonempty t = true) (fields sep s) = [s].
Proof.
  intros Hs Hne. rewrite <- (append_nil_r s) at 1.
  rewrite (fields_word _ _ _ Hs). cbn [fields]. rewrite append_nil_r.
  by rewrite filter_cons_True by done.
Qed.

End NonEmptyFields.

Lemma entry_no_blank (b : byte) :
  all_chars (fun c => negb (is_blank c)) (entry b) = true.
Proof. destruct b; vm_compute; reflexivity. Qed.

Lemma entry_nonempty (b : byte) : nonempty (entry b) = true.
Proof. unfold entry. by rewrite byte_literal_digits. Qed.

Lemma words_render_row r t :
  line_end t ->
  words (render_row r +:+ t) = map entry r ++ words t.
Proof.
  intros Hend. unfold words.
  induction r as [|b r IH]; [done|]. destruct r as [|b' r].
  - rewrite render_row_one. fold (entry b). cbn [map app].
    destruct Hend as [-> | [t' ->]].
    + rewrite append_nil_r.
      by rewrite (pieces_last_word is_blank _
                    (entry_no_blank b) (entry_nonempty b)).
    + unfold nl. rewrite (append_cons _ "" t'), append_nil_l.
      rewrite (pieces_word is_blank _ "010" t'
                 (entry_no_blank b) (entry_nonempty b) eq_refl).
      by rewrite <- (pieces_separators is_blank (String "010" "") t' eq_refl).
  - rewrite render_row_more, !append_assoc.
    rewrite <- (append_assoc (byte_literal b) "," _). fold (entry b).
    rewrite (append_cons " " ""), append_nil_l.
    rewrite (pieces_word is_blank _ " " _
               (entry_no_blank b) (entry_nonempty b) eq_refl).
    cbn [map app]. f_equal. exact IH.
Qed.

Lemma words_body_of_rows rs :
  words (body_of_rows rs) = map entry (concat rs).
Proof.
  induction rs as [|r rs IH]; [done|].
  rewrite body_of_rows_cons, <- append_assoc. unfold words.
  rewrite (pieces_separators is_blank (nl +:+ indent) _ eq_refl).
  fold (words (render_row r +:+ body_of_rows rs)).
  rewrite (words_render_row r _ (body_of_rows_line_end rs)), IH.
  cbn [concat]. by rewrite map_app.
Qed.

Lemma rows_cons (l : list byte) :
  l <> [] -> rows l = take 16 l :: rows (drop 16 l).
Proof.
  intros Hne. assert (0 < length l) as Hpos by (destruct l; simpl; [done|lia]).
  unfold rows. destruct (decide (length l <= 16)) as [Hle | Hgt].
  - rewrite row_count_small by done. rewrite (drop_ge l 16) by done.
    cbn [seq map length]. unfold row_count. cbn. by unfold row.
  - replace (length l) with (16 + length (drop 16 l))
      by (rewrite length_drop; lia).
    rewrite row_count_step. cbn [seq map].
    rewrite <- seq_shift, map_map.
    rewrite (map_ext _ (row (drop 16 l)) (row_drop l)).
    unfold row at 1. by simpl drop.
Qed.

(** The rows, put end to end, are the input. *)
Lemma concat_rows m : forall l : list byte,
  length l <= 16 * m -> concat (rows l) = l.
Proof.
  induction m as [|m IH]; intros l Hm.
  - destruct l; [done | simpl in Hm; lia].
  - destruct l as [|b l]; [done|].
    rewrite rows_cons by done. cbn [concat].
    rewrite IH by (rewrite length_drop; lia).
    apply take_drop.
Qed.

(** Cut at blanks, the array body is the literals of the input in order,
    each with its comma. *)
Lemma words_array_body (png_data : list byte) :
  words (array_body png_data) = map entry png_data.
Proof.
  rewrite array_body_rows, words_body_of_rows.
  rewrite (concat_rows (length png_data)) by lia. done.
Qed.

End WordFacts.

(** ** Facts about files *)

Module OSFacts.
Import Text Header OS Convert.


Lemma file_content_put_content w path content :
  file_content (put_content w path content) path = Some content.
Proof.
  unfold file_content, put_content, node_at. simpl.
  rewrite lookup_insert_eq. by destruct (files w !! _) as [[]|].
Qed.

Lemma files_put_content_ne w path content k :
  k <> canonical w path ->
  files (put_content w path content) !! k = files w !! k.
Proof. intros Hk. unfold put_content. simpl. by rewrite lookup_insert_ne. Qed.

(** A file that could be opened for writing can be opened again. *)
Lemma open_put_content w path content :
  open_for_writing w path = None ->
  open_for_writing (put_content w path content) path = None.
Proof.
  unfold open_for_writing, put_content, node_at. simpl.
  rewrite lookup_insert_eq. by destruct (files w !! _) as [[]|].
Qed.

Lemma put_content_twice w path content :
  files (put_content (put_content w path content) path content)
    = files (put_content w path content).
Proof.
  unfold put_content, node_at. simpl. rewrite lookup_insert_eq.
  rewrite insert_insert_eq. by destruct (files w !! _) as [[]|].
Qed.

Lemma write_text_ok w path text w' :
  write_text w path text = (w', None) ->
  open_for_writing w path = None /\
  write_fault w path text = None /\
  w' = put_content w path (encode text).
Proof.
  unfold write_text. destruct (open_for_writing w path); [intros [=]|].
  destruct (write_fault w path text) as [[e kept]|]; [intros [=]|].
  by intros [= <-].
Qed.

(** A write that raises failed at [open], and nothing has changed, or after
    it, and the file holds what the failed write left. *)
Lemma write_text_raises w path text w' e :
  write_text w path text = (w', Some e) ->
  (open_for_writing w path = Some e /\ w' = w) \/
  (open_for_writing w path = None /\
   exists kept, write_fault w path text = Some (e, kept) /\
                w' = put_content w path kept).
Proof.
  unfold write_text. destruct (open_for_writing w path) as [e'|].
  - intros [= <- <-]. by left.
  - destruct (write_fault w path text) as [[e' kept]|]; [|intros [=]].
    intros [= <- <-]. right. split; [done|]. by exists kept.
Qed.

(** A run that returns [True] has read the input and written the text
    made from it. *)
Lemma returns_true inp out w w1 :
  png_to_cpp_array inp out w = (w1, Return true) ->
  exists png_data,
    read_binary w inp = inr png_data /\
    open_for_writing w out = None /\
    write_fault w out (header_content (basename inp) png_data) = None /\
    w1 = print
           (print
              (put_content w out
                 (encode (header_content (basename inp) png_data)))
              ("Successfully generated " +:+ out))
           ("Image size: " +:+ str_int (length png_data) +:+ " bytes").
Proof.
  unfold png_to_cpp_array.
  destruct (path_exists w inp); [|intros [=]]. cbn [negb].
  destruct (read_binary w inp) as [e | png_data]; [intros [=]|].
  destruct (write_text _ _ _) as [w' [e|]] eqn:Hw; [intros [=]|].
  intros [= <-]. apply write_text_ok in Hw as (Ho & Hf & ->).
  by exists png_data.
Qed.

Lemma returns_true_content inp out w w1 :
  png_to_cpp_array inp out w = (w1, Return true) ->
  exists png_data,
    read_binary w inp = inr png_data /\
    file_content w1 out =
      Some (encode (header_content (basename inp) png_data)).
Proof.
  intros (png_data & Hr & _ & _ & ->)%returns_true. exists png_data.
  split; [done|]. apply file_content_put_content.
Qed.


(** Whatever the outcome, the files that the output path does not lead to
    are as they were. *)
Lemma other_files_kept inp out w w' r k :
  png_to_cpp_array inp out w = (w', r) ->
  k <> canonical w out ->
  files w' !! k = files w !! k.
Proof.
  unfold png_to_cpp_array. intros Hrun Hk.
  destruct (path_exists w inp); cbn [negb] in Hrun;
    [|by injection Hrun as <- <-].
  destruct (read_binary w inp) as [e | png_data];
    [by injection Hrun as <- <-|].
  destruct (write_text _ _ _) as [w0 [e|]] eqn:Hw; injection Hrun as <- <-.
  - apply write_text_raises in Hw as [[_ ->] | [_ (kept & _ & ->)]];
      [done|]. simpl. by rewrite lookup_insert_ne.
  - apply write_text_ok in Hw as (_ & _ & ->). simpl.
    by rewrite lookup_insert_ne.
Qed.

(** Run again on the result of a successful run, with an input path that
    does not lead to the output file, the conversion succeeds and leaves
    every file as it is. *)
Lemma rerun_in_sequence inp out w w1 :
  canonical w inp <> canonical w out ->
  png_to_cpp_array inp out w = (w1, Return true) ->
  exists w2, png_to_cpp_array inp out w1 = (w2, Return true) /\
             files w2 = files w1.
Proof.
  intros Hne (png_data & Hr & Ho & Hf & ->)%returns_true.
  set (text := header_content (basename inp) png_data) in *.
  set (w0 := put_content w out (encode text)).
  assert (node_at w0 inp = node_at w inp) as Hin.
  { unfold node_at. subst w0. simpl. by rewrite lookup_insert_ne. }
  unfold png_to_cpp_array, path_exists, read_binary in *.
  change (node_at (print (print w0 _) _) inp) with (node_at w0 inp).
  rewrite Hin. destruct (node_at w inp) as [[c re we|e]|]; try done.
  destruct re; [done|]. injection Hr as ->. cbn [negb].
  fold text. unfold write_text.
  change (open_for_writing (print (print w0 _) _) out)
    with (open_for_writing w0 out).
  subst w0. rewrite (open_put_content _ _ _ Ho).
  change (write_fault (print (print (put_content w out (encode text)) _) _))
    with (write_fault w).
  rewrite Hf. eexists. split; [reflexivity|].
  exact (put_content_twice w out (encode text)).
Qed.

End OSFacts.

(** ** The model on small inputs *)

Module Checks.
Import Text Header Reader Layout OS Convert Scenario.

Example format_02x_small : format_02x 10 = "0a".
Proof. reflexivity. Qed.

Example format_02x_large : format_02x 255 = "ff".
Proof. reflexivity. Qed.

Example format_x_wide : format_x 4096 = "1000".
Proof. reflexivity. Qed.

Example basename_of_script_input :
  basename "../CompanySplashScreen.png" = "CompanySplashScreen.png".
Proof. reflexivity. Qed.

Example array_body_empty : array_body [] = "".
Proof. reflexivity. Qed.

Example lines_of_two_bytes :
  lines (header_content "logo.png" [x89; x50]) =
    [ "#ifndef SPLASH_IMAGE_DATA_H";
      "#define SPLASH_IMAGE_DATA_H";
      "";
      "// Auto-generated from logo.png";
      "// File size: 2 bytes";
      "";
      "const unsigned char SPLASH_IMAGE_DATA[] = {";
      "";
      "    0x89, 0x50,";
      "};";
      "";
      "const unsigned int SPLASH_IMAGE_SIZE = 2;";
      "";
      "#endif // SPLASH_IMAGE_DATA_H";
      "" ].
Proof. vm_compute. reflexivity. Qed.

Example lines_of_spec_format :
  lines (spec_format "logo.png" [x89; x50]) =
    [ "#ifndef SPLASH_IMAGE_DATA_H";
      "#define SPLASH_IMAGE_DATA_H";
      "";
      "// Auto-generated from logo.png";
      "// File size: 2 bytes";
      "";
      "const unsigned char SPLASH_IMAGE_DATA[] = {";
      "    0x89, 0x50";
      "};";
      "";
      "const unsigned int SPLASH_IMAGE_SIZE = 2;";
      "";
      "#endif // SPLASH_IMAGE_DATA_H";
      "" ].
Proof. vm_compute. reflexivity. Qed.

Example words_of_two_bytes :
  words (array_body [x89; x50]) = ["0x89,"; "0x50,"].
Proof. vm_compute. reflexivity. Qed.

Example main_without_image :
  (main no_files).2 = Exit 1 /\
  stdout (main no_files).1 =
    [ "Error: PNG file not found: ../CompanySplashScreen.png";
      "Image conversion failed!" ].
Proof. split; reflexivity. Qed.

Example stdout_of_a_run :
  stdout after_one_run =
    [ "Successfully generated out.h"; "Image size: 2 bytes" ].
Proof. vm_compute. reflexivity. Qed.

(** A write stopped by a full disk: [False], the message with the cause,
    and the ten bytes that were written left in the file. *)
Example run_on_small_disk :
  (png_to_cpp_array "logo.png" "out.h" small_disk).2 = Return false /\
  stdout (png_to_cpp_array "logo.png" "out.h" small_disk).1 =
    [ "Error writing header file: [Errno 28] No space left on device" ] /\
  file_content (png_to_cpp_array "logo.png" "out.h" small_disk).1 "out.h"
    = Some (encode "#ifndef SP").
Proof. repeat split; vm_compute; reflexivity. Qed.

(** No parent directory for the output: [False] and no file made. *)
Example run_without_parent :
  (png_to_cpp_array "logo.png" "nodir/out.h" no_parent).2 = Return false /\
  files (png_to_cpp_array "logo.png" "nodir/out.h" no_parent).1
    = files no_parent.
Proof. split; reflexivity. Qed.

(** The image converted through another name of its own file. *)
Example run_onto_the_input :
  (png_to_cpp_array "logo.png" "./logo.png" two_names).2 = Return true /\
  file_content
    (png_to_cpp_array "logo.png" "./logo.png" two_names).1 "logo.png"
    = Some (encode (header_content "logo.png" [x89; x50])).
Proof. split; vm_compute; reflexivity. Qed.

End Checks.

(** * The properties of the specification *)

Import Text Header Reader Layout OS Convert Scenario.
Import TextFacts LoopFacts RowFacts LineFacts FormatFacts WordFacts OSFacts.

(** C1, as stated, fails: for the one-byte input [0x89] the array body is a
    line feed, the indentation and [0x89,], so a comma follows the final
    literal. *)
Lemma trailing_comma_counterexample :
  ~ (no_trailing_comma (array_body [x89]) /\
     comma_spacing (array_body [x89])).
Proof. intros [Hlast _]. by apply Hlast. Qed.

(** C1, amended: every literal of the array body, the final one included,
    is immediately followed by a comma: cut at spaces and line feeds, the
    body is the literals of the input bytes in order, each with its comma.
    So the comma after the literal of the final byte ends the body. And
    every comma that is not at the end of a payload line is followed by
    exactly one space. *)
Theorem comma_after_every_literal (png_data : list byte) :
  words (array_body png_data) = map entry png_data /\
  (forall init b, png_data = init ++ [b] ->
     exists s, array_body png_data = s +:+ byte_literal b +:+ ",") /\
  comma_spacing (array_body png_data).
Proof.
  split; [apply words_array_body|]. split.
  - intros init b ->. apply array_body_last.
  - intros s1 s2 Hs. rewrite array_body_rows in Hs.
    pose proof (commas_spaced_spec _ (commas_spaced_body_of_rows _) _ _ Hs)
      as [-> | [[t ->] | Hsp]].
    + left. by left.
    + left. right. by exists t.
    + by right.
Qed.

(** The input [0x89 0x50]: its last literal and the comma before it. *)
Lemma comma_after_every_literal_witness :
  (exists s, array_body [x89; x50] = s +:+ byte_literal x50 +:+ ",") /\
  (line_end " 0x50," \/
   exists c t, " 0x50," = " " +:+ String c t /\ c <> " "%char).
Proof.
  split.
  - apply (proj1 (proj2 (comma_after_every_literal [x89; x50]))
             [x89] x50).
    reflexivity.
  - apply (proj2 (proj2 (comma_after_every_literal [x89; x50]))
             (nl +:+ "    0x89") " 0x50,").
    reflexivity.
Defined.

(** C2: parsing the tokens of the array body, in the order they were
    emitted, gives back the input bytes; the tokens are the literals of the
    input bytes in input order. *)
Theorem decode_roundtrip (png_data : list byte) :
  decode_array (array_body png_data) = Some png_data /\
  tokens (array_body png_data) = map byte_literal png_data.
Proof.
  assert (tokens (array_body png_data) = map byte_literal png_data) as Ht
    by apply tokens_enumerate_loop.
  split; [|done]. unfold decode_array. rewrite Ht.
  apply mapM_parse_literals.
Qed.

(** C3: the number written for [SPLASH_IMAGE_SIZE] is the decimal numeral of
    the length of the input, which is also the number of literals in the
    array body. *)
Theorem size_constant_is_length (name : string) (png_data : list byte) :
  header_content name png_data =
    header_open name (length png_data) +:+ array_body png_data +:+
    nl +:+ "};" +:+ nl +:+ nl +:+
    "const unsigned int SPLASH_IMAGE_SIZE = "
      +:+ str_int (length png_data) +:+ ";" +:+ nl +:+
    nl +:+ "#endif // SPLASH_IMAGE_DATA_H" +:+ nl /\
  int_str (str_int (length png_data)) = Some (length png_data) /\
  length (tokens (array_body png_data)) = length png_data.
Proof.
  split; [apply header_content_parts|].
  split; [apply str_int_roundtrip|].
  unfold array_body. by rewrite tokens_enumerate_loop, length_map.
Qed.

(** C4: the array body has [ceil(N/16)] payload lines; line [k] is the
    indentation followed by the literals of the bytes [16k] to [16k+15];
    every line but the last holds 16 literals; and each line is begun by a
    line feed. *)
Theorem sixteen_per_line (png_data : list byte) :
  length (payload_lines (array_body png_data))
    = row_count (length png_data) /\
  (length png_data <= 16 * row_count (length png_data) /\
   16 * row_count (length png_data) < length png_data + 16) /\
  (forall k line,
     payload_lines (array_body png_data) !! k = Some line ->
     line = indent +:+ render_row (row png_data k) /\
     tokens line = map byte_literal (row png_data k) /\
     1 <= length (tokens line) <= 16) /\
  (forall k line,
     S k < length (payload_lines (array_body png_data)) ->
     payload_lines (array_body png_data) !! k = Some line ->
     length (tokens line) = 16) /\
  array_body png_data =
    String.concat ""
      (map (fun line => nl +:+ line) (payload_lines (array_body png_data))).
Proof.
  assert (payload_lines (array_body png_data)
          = map payload_line (rows png_data)) as Hl.
  { unfold payload_lines. by rewrite array_body_rows, lines_body_of_rows. }
  assert (forall k line,
            payload_lines (array_body png_data) !! k = Some line ->
            k < row_count (length png_data) /\
            line = payload_line (row png_data k)) as Hk.
  { intros k line. rewrite Hl, list_lookup_fmap.
    destruct (rows png_data !! k) as [r|] eqn:Hr; [|done].
    intros [= <-].
    assert (k < row_count (length png_data)) as Hlt.
    { rewrite <- length_rows. by apply lookup_lt_Some in Hr. }
    rewrite rows_lookup in Hr by done. by injection Hr as <-. }
  pose proof (row_count_bounds (length png_data)) as Hceil.
  split; [by rewrite Hl, length_map, length_rows|].
  split; [lia|].
  split.
  { intros k line [Hlt ->]%Hk.
    rewrite tokens_payload_line, length_map.
    split; [done|]. split; [done|]. by apply length_row_bounds. }
  split.
  { intros k line Hlast [_ ->]%Hk.
    rewrite tokens_payload_line, length_map. apply length_row_full.
    by rewrite Hl, length_map, length_rows in Hlast. }
  rewrite Hl, map_map. apply array_body_rows.
Qed.

(** The two payload lines of the seventeen-byte input. *)
Lemma sixteen_per_line_witness :
  ("    0x10," = indent +:+ render_row (row bytes_00_to_10 1) /\
   tokens "    0x10," = map byte_literal (row bytes_00_to_10 1) /\
   1 <= length (tokens "    0x10,") <= 16) /\
  length (tokens (payload_line (row bytes_00_to_10 0))) = 16.
Proof.
  split.
  - apply (proj1 (proj2 (proj2 (sixteen_per_line bytes_00_to_10)))
             1 "    0x10,").
    reflexivity.
  - apply (proj1 (proj2 (proj2 (proj2 (sixteen_per_line bytes_00_to_10))))
             0 (payload_line (row bytes_00_to_10 0))).
    + vm_compute. lia.
    + reflexivity.
Defined.



(** C6, as stated, fails: for the two bytes [0x89 0x50] the text written
    has an empty line after the declaration line and a comma after [0x50],
    which the format of the specification has not. *)
Lemma spec_format_counterexample :
  header_content "logo.png" [x89; x50] <> spec_format "logo.png" [x89; x50].
Proof. apply String.eqb_neq. vm_compute. reflexivity. Qed.

(** C6, amended: the text written is, line by line, the include guard, an
    empty line, the two comment lines, an empty line, the declaration line,
    an empty line, the payload lines (16 literals per line, a comma after
    every literal and one space between neighbours), the closing brace, an
    empty line, the size constant, an empty line and the end of the guard. *)
Theorem written_text_format (name : string) (png_data : list byte) :
  header_content name png_data = unlines (written_lines name png_data).
Proof. apply header_content_lines. Qed.

(** C7, as stated, fails: the second payload line of the seventeen-byte
    scenario is the indentation and [0x10,], with a comma. *)
Lemma seventeen_bytes_counterexample : ~ two_lines_without_final_comma.
Proof.
  intros (l1 & l2 & Hl & _ & _ & Hcomma & _).
  vm_compute in Hl. injection Hl as _ <-. discriminate Hcomma.
Qed.

(** C7, amended: for the bytes [0x00] to [0x10] the array body has two
    payload lines, the first with the sixteen entries [0x00,] to [0x0f,],
    the second with the single entry [0x10,]; the size constant is 17. *)
Theorem seventeen_bytes_two_lines :
  payload_lines (array_body bytes_00_to_10) =
    [ "    0x00, 0x01, 0x02, 0x03, 0x04, 0x05, 0x06, 0x07, 0x08, 0x09, 0x0a, 0x0b, 0x0c, 0x0d, 0x0e, 0x0f,";
      "    0x10," ] /\
  map tokens (payload_lines (array_body bytes_00_to_10)) =
    [ first_sixteen; ["0x10"] ] /\
  header_close (length bytes_00_to_10) =
    nl +:+ "};" +:+ nl +:+ nl +:+
    "const unsigned int SPLASH_IMAGE_SIZE = 17;" +:+ nl +:+
    nl +:+ "#endif // SPLASH_IMAGE_DATA_H" +:+ nl.
Proof. repeat split; vm_compute; reflexivity. Qed.

(** C8: a successful run leaves in the output file the text made from the
    bytes read and the base name of the input path; any other successful run
    that reads the same bytes from a path with the same base name leaves the
    same content; and the run repeated at once on the same paths, when they
    do not lead to one file, succeeds and leaves every file as it is. *)
Theorem same_input_same_output (inp out : string) (w w1 : world) :
  png_to_cpp_array inp out w = (w1, Return true) ->
  (exists png_data,
     read_binary w inp = inr png_data /\
     file_content w1 out =
       Some (encode (header_content (basename inp) png_data))) /\
  (forall inp' out' w' w1',
     read_binary w' inp' = read_binary w inp ->
     basename inp' = basename inp ->
     png_to_cpp_array inp' out' w' = (w1', Return true) ->
     file_content w1' out' = file_content w1 out) /\
  (canonical w inp <> canonical w out ->
   exists w2, png_to_cpp_array inp out w1 = (w2, Return true) /\
         files w2 = files w1).
Proof.
  intros Hrun. split; [exact (returns_true_content _ _ _ _ Hrun)|]. split.
  - intros inp' out' w' w1' Hread Hbase Hrun'.
    apply returns_true_content in Hrun as (d & Hd & ->).
    apply returns_true_content in Hrun' as (d' & Hd' & ->).
    rewrite Hread, Hd in Hd'. injection Hd' as <-. by rewrite Hbase.
  - intros Hne. exact (rerun_in_sequence _ _ _ _ Hne Hrun).
Qed.

(** Two conversions in a row of the two-byte image. *)
Lemma same_input_same_output_witness :
  file_content after_one_run "out.h" =
    Some (encode (header_content "logo.png" [x89; x50])) /\
  file_content after_two_runs "out.h" = file_content after_one_run "out.h" /\
  files after_two_runs = files after_one_run.
Proof.
  assert (png_to_cpp_array "logo.png" "out.h" one_image
          = (after_one_run, Return true)) as Hrun by reflexivity.
  destruct (same_input_same_output _ _ _ _ Hrun)
    as ((d & Hd & Hc) & Hsame & Hagain).
  injection Hd as <-.
  destruct (Hagain ltac:(discriminate)) as (w2 & Hrun2 & Hfiles).
  assert (w2 = after_two_runs) as -> by (unfold after_two_runs; by rewrite Hrun2).
  split; [exact Hc|]. split; [|exact Hfiles].
  apply (Hsame "logo.png" "out.h" after_one_run after_two_runs);
    [reflexivity | reflexivity | exact Hrun2].
Defined.



(** C10: the literal of a byte is [0x] followed by two lowercase hexadecimal
    digits, the first for the high half and the second for the low half of
    the byte, so that a value below 16 has the digit [0] first; and every
    token of an array body has this shape. *)
Theorem literal_shape_holds :
  (forall b : byte, exists h l,
     byte_literal b = String "0" (String "x" (String h (String l ""))) /\
     is_lower_hex_digit h = true /\ is_lower_hex_digit l = true /\
     hex_value h = Some (Byte.to_N b / 16)%N /\
     hex_value l = Some (Byte.to_N b mod 16)%N /\
     ((Byte.to_N b < 16)%N -> h = "0"%char)) /\
  (forall png_data : list byte,
     Forall (fun t => literal_shape t = true)
       (tokens (array_body png_data))).
Proof.
  split.
  - intros b.
    exists (hex_digit (Byte.to_N b / 16)), (hex_digit (Byte.to_N b mod 16)).
    split; [apply byte_literal_digits|].
    destruct b; repeat split; try reflexivity;
      intros Hlt; first [reflexivity | by vm_compute in Hlt].
  - intros png_data. unfold array_body. rewrite tokens_enumerate_loop.
    apply Forall_fmap, Forall_forall. intros b _. simpl.
    destruct b; vm_compute; reflexivity.
Qed.

(** The byte [0x0a], below 16. *)
Lemma literal_shape_holds_witness :
  exists h l, byte_literal x0a = String "0" (String "x" (String h (String l "")))
         /\ h = "0"%char.
Proof.
  destruct (proj1 literal_shape_holds x0a)
    as (h & l & Hs & _ & _ & _ & _ & Hpad).
  exists h, l. split; [exact Hs|]. apply Hpad. reflexivity.
Defined.

(** * Further properties of the program *)

(** ** Sizes and lines *)

Module SizeFacts.
Import Text Header Reader Layout OS Shape.
Import TextFacts LoopFacts RowFacts LineFacts FormatFacts WordFacts.

Lemma length_append (s t : string) :
  String.length (s +:+ t) = String.length s + String.length t.
Proof.
  induction s as [|c s IH]; [done|]. rewrite append_cons. simpl.
  by rewrite IH.
Qed.

Lemma length_encode (s : string) : length (encode s) = String.length s.
Proof.
  unfold encode. induction s as [|c s IH]; [done|]. simpl. by rewrite <- IH.
Qed.

Lemma length_byte_literal (b : byte) : String.length (byte_literal b) = 4.
Proof. by rewrite byte_literal_digits. Qed.

(** A row of [k] literals takes [6k - 1] characters. *)
Lemma length_render_row (r : list byte) :
  r <> [] -> S (String.length (render_row r)) = 6 * length r.
Proof.
  induction r as [|b r IH]; [done|]. intros _. destruct r as [|b' r].
  - rewrite render_row_one, length_append, length_byte_literal. done.
  - rewrite render_row_more, !length_append, length_byte_literal.
    cbn [String.length]. specialize (IH ltac:(done)).
    cbn [length] in *. lia.
Qed.

Lemma length_body_of_rows m : forall l : list byte,
  length l <= 16 * m ->
  String.length (body_of_rows (rows l))
    = 6 * length l + 4 * row_count (length l).
Proof.
  induction m as [|m IH]; intros l Hm.
  - destruct l; [done | simpl in Hm; lia].
  - destruct l as [|b l]; [done|].
    set (d := b :: l) in *.
    assert (0 < length d) as Hpos by (simpl; lia).
    rewrite rows_cons by done.
    rewrite body_of_rows_cons, !length_append.
    rewrite IH by (rewrite length_drop; lia).
    assert (take 16 d <> []) as Hrow by done.
    pose proof (length_render_row _ Hrow) as Hr.
    rewrite length_take in Hr. rewrite length_drop.
    change (String.length nl) with 1. change (String.length indent) with 4.
    destruct (decide (length d <= 16)) as [Hle | Hgt].
    + rewrite (row_count_small (length d)) by done.
      replace (length d - 16) with 0 by lia.
      change (row_count 0) with 0. lia.
    + assert (row_count (length d) = S (row_count (length d - 16))) as ->.
      { rewrite <- row_count_step. f_equal. lia. }
      lia.
Qed.

Lemma length_array_body (png_data : list byte) :
  String.length (array_body png_data)
    = 6 * length png_data + 4 * row_count (length png_data).
Proof.
  rewrite array_body_rows.
  apply (length_body_of_rows (length png_data)). lia.
Qed.

Lemma str_int_no_newline (n : nat) : all_chars no_newline (str_int n) = true.
Proof.
  unfold str_int.
  assert (forall d, all_chars no_newline (NilEmpty.string_of_uint d) = true)
    as Hd by (induction d; simpl; auto).
  destruct (Nat.to_uint n); simpl; auto; apply Hd.
Qed.

(** Splitting at line feeds gives back the lines a text was made of, and an
    empty field after the last line feed. *)
Lemma lines_unlines (ls : list string) :
  Forall (fun l => all_chars no_newline l = true) ls ->
  lines (unlines ls) = ls ++ [""].
Proof.
  induction 1 as [|l ls Hl _ IH]; [done|].
  cbn [unlines foldr app]. fold (unlines ls). unfold lines in *.
  rewrite (fields_word is_newline l _ Hl).
  unfold nl. rewrite append_cons, append_nil_l. cbn [fields].
  change (is_newline "010") with true. cbv iota.
  by rewrite IH, append_nil_r.
Qed.

Lemma payload_line_no_newline (r : list byte) :
  all_chars no_newline (payload_line r) = true.
Proof.
  unfold payload_line, no_newline. rewrite all_chars_app.
  by rewrite (render_row_no_newline r).
Qed.

(** The rows of an input that continues after whole rows. *)
Lemma rows_app k : forall l1 l2 : list byte,
  length l1 = 16 * k -> rows (l1 ++ l2) = rows l1 ++ rows l2.
Proof.
  induction k as [|k IH]; intros l1 l2 Hk.
  - by destruct l1.
  - assert (l1 <> []) as Hne by (destruct l1; simpl in *; [lia | done]).
    rewrite (rows_cons (l1 ++ l2)) by (by destruct l1).
    rewrite (rows_cons l1) by done.
    rewrite take_app_le, drop_app_le by lia.
    rewrite IH by (rewrite length_drop; lia). done.
Qed.

Lemma body_of_rows_app rs1 rs2 :
  body_of_rows (rs1 ++ rs2) = body_of_rows rs1 +:+ body_of_rows rs2.
Proof.
  induction rs1 as [|r rs1 IH]; [done|].
  rewrite <- app_comm_cons, !body_of_rows_cons, IH.
  by rewrite !append_assoc.
Qed.

End SizeFacts.

(** ** Properties of runs and of the written text *)

Import Shape SizeFacts.







(** X4: a call that returns [True] changes the file that the output path
    leads to and no other. When the input path does not lead to that file,
    the input reads as before; when it does, the input now reads as the text
    that was written. *)
Theorem success_changes_only_output (inp out : string) (w w1 : world) :
  png_to_cpp_array inp out w = (w1, Return true) ->
  (forall k, k <> canonical w out -> files w1 !! k = files w !! k) /\
  (canonical w inp <> canonical w out ->
   read_binary w1 inp = read_binary w inp) /\
  (canonical w inp = canonical w out ->
   exists png_data,
     read_binary w inp = inr png_data /\
     read_binary w1 inp =
       inr (encode (header_content (basename inp) png_data))).
Proof.
  intros Hrun.
  split; [intros k Hk; exact (other_files_kept _ _ _ _ _ _ Hrun Hk)|].
  apply returns_true in Hrun as (png_data & Hr & Ho & Hf & ->). split.
  - intros Hne. unfold read_binary, node_at. simpl.
    by rewrite lookup_insert_ne.
  - intros Heq. exists png_data. split; [done|].
    assert (node_at w inp = node_at w out) as Hn
      by (unfold node_at; by rewrite Heq).
    unfold read_binary in *. rewrite Hn in Hr.
    unfold node_at at 1. simpl. rewrite Heq, lookup_insert_eq.
    destruct (node_at w out) as [[c re we|e]|]; try done.
    by destruct re.
Qed.

(** The image converted beside itself, and through another name of its own
    file. *)
Lemma success_changes_only_output_witness :
  read_binary after_one_run "logo.png" = read_binary one_image "logo.png" /\
  exists png_data,
    read_binary two_names "logo.png" = inr png_data /\
    read_binary (png_to_cpp_array "logo.png" "./logo.png" two_names).1
      "logo.png" =
      inr (encode (header_content (basename "logo.png") png_data)).
Proof.
  split.
  - assert (png_to_cpp_array "logo.png" "out.h" one_image
            = (after_one_run, Return true)) as Hrun by reflexivity.
    apply (proj1 (proj2 (success_changes_only_output _ _ _ _ Hrun))).
    discriminate.
  - assert (png_to_cpp_array "logo.png" "./logo.png" two_names
            = ((png_to_cpp_array "logo.png" "./logo.png" two_names).1,
               Return true)) as Hrun by (vm_compute; reflexivity).
    apply (proj2 (proj2 (success_changes_only_output _ _ _ _ Hrun))).
    reflexivity.
Defined.





(** X7: the empty input. The array body is empty exactly when the input is;
    the text for an empty input has one empty line between the declaration
    line and the closing brace, and 0 for both sizes. *)
Theorem empty_input (name : string) :
  (forall png_data : list byte, array_body png_data = "" <-> png_data = []) /\
  header_content name [] =
    unlines
      [ "#ifndef SPLASH_IMAGE_DATA_H";
        "#define SPLASH_IMAGE_DATA_H";
        "";
        "// Auto-generated from " +:+ name;
        "// File size: 0 bytes";
        "";
        "const unsigned char SPLASH_IMAGE_DATA[] = {";
        "";
        "};";
        "";
        "const unsigned int SPLASH_IMAGE_SIZE = 0;";
        "";
        "#endif // SPLASH_IMAGE_DATA_H" ].
Proof.
  split.
  - intros png_data. split; [|by intros ->].
    destruct png_data as [|b l]; [done|].
    unfold array_body. rewrite enumerate_loop_cons.
    by rewrite (before_row_start 0 eq_refl).
  - by rewrite header_content_lines.
Qed.

(** The body of the empty input. *)
Lemma empty_input_witness : array_body [] = "".
Proof. apply (proj1 (empty_input "logo.png") []). reflexivity. Defined.

(** X8: the size of what is written. The array body takes six characters
    for each byte and four more for each row; the whole text adds the base
    name, the decimal length twice and 224 fixed characters. *)
Theorem text_length (name : string) (png_data : list byte) :
  String.length (array_body png_data)
    = 6 * length png_data + 4 * row_count (length png_data) /\
  length (encode (header_content name png_data))
    = 224 + String.length name
      + 2 * String.length (str_int (length png_data))
      + 6 * length png_data + 4 * row_count (length png_data).
Proof.
  split; [apply length_array_body|].
  rewrite length_encode, header_content_parts, !length_append.
  rewrite length_array_body. unfold header_open, header_close.
  rewrite !length_append. change (String.length nl) with 1. simpl. lia.
Qed.

(** X9: when the base name has no line feed, splitting the written text at
    line feeds gives exactly the lines it was made of, followed by the empty
    field after the last line feed: 14 fields and one for each row. *)
Theorem lines_of_written_text (name : string) (png_data : list byte) :
  all_chars no_newline name = true ->
  lines (header_content name png_data)
    = written_lines name png_data ++ [""] /\
  length (lines (header_content name png_data))
    = 14 + row_count (length png_data).
Proof.
  intros Hname.
  assert (lines (header_content name png_data)
          = written_lines name png_data ++ [""]) as Hl.
  { rewrite header_content_lines. apply lines_unlines.
    unfold written_lines. cbv zeta.
    pose proof (str_int_no_newline (length png_data)) as Hn.
    apply Forall_app. split; [|apply Forall_app; split].
    - repeat constructor; rewrite ?all_chars_app, ?Hname, ?Hn; done.
    - apply Forall_fmap, Forall_forall. intros r _.
      apply payload_line_no_newline.
    - repeat constructor; rewrite ?all_chars_app, ?Hn; done. }
  split; [done|]. rewrite Hl. unfold written_lines.
  rewrite !length_app, length_map, length_rows. simpl. lia.
Qed.

(** The two-byte image under the name [logo.png]. *)
Lemma lines_of_written_text_witness :
  lines (header_content "logo.png" [x89; x50])
    = written_lines "logo.png" [x89; x50] ++ [""] /\
  length (lines (header_content "logo.png" [x89; x50]))
    = 14 + row_count (length [x89; x50]).
Proof.
  apply (lines_of_written_text "logo.png" [x89; x50]). reflexivity.
Defined.

(** X10: the text written is longer than the input, by more than six times:
    so a call that returns [True] with the same path for input and output
    has replaced the content of that file by a different one. *)
Theorem output_longer_than_input (inp out : string) (w w1 : world) :
  png_to_cpp_array inp out w = (w1, Return true) ->
  (exists png_data text,
     read_binary w inp = inr png_data /\
     file_content w1 out = Some text /\
     6 * length png_data < length text) /\
  (inp = out -> file_content w1 inp <> file_content w inp).
Proof.
  intros (png_data & Hr & Hc)%returns_true_content.
  assert (6 * length png_data
          < length (encode (header_content (basename inp) png_data))) as Hlt.
  { rewrite length_encode, header_content_parts.
    rewrite !length_append, length_array_body.
    unfold header_open. rewrite !length_append.
    change (String.length nl) with 1. simpl. lia. }
  split; [by eauto|].
  intros <-. rewrite Hc. unfold file_content. unfold read_binary in Hr.
  destruct (node_at w inp) as [[c re we|e]|]; try done.
  destruct re; [done|]. injection Hr as ->. intros [= Heq].
  apply (f_equal length) in Heq. lia.
Qed.

(** The header of the scenario converted onto itself. *)
Lemma output_longer_than_input_witness :
  file_content
    (png_to_cpp_array "out.h" "out.h" after_one_run).1 "out.h"
  <> file_content after_one_run "out.h".
Proof.
  assert (png_to_cpp_array "out.h" "out.h" after_one_run
          = ((png_to_cpp_array "out.h" "out.h" after_one_run).1,
             Return true)) as Hrun by (vm_compute; reflexivity).
  apply (proj2 (output_longer_than_input _ _ _ _ Hrun)). reflexivity.
Defined.

(** X12: the array body of an input cut after a whole number of rows is the
    body of the first part followed by the body of the rest. *)
Theorem array_body_app (k : nat) (part rest : list byte) :
  length part = 16 * k ->
  array_body (part ++ rest) = array_body part +:+ array_body rest.
Proof.
  intros Hk. rewrite !array_body_rows, (rows_app k) by done.
  apply body_of_rows_app.
Qed.

(** Sixteen bytes followed by one more. *)
Lemma array_body_app_witness :
  array_body (take 16 bytes_00_to_10 ++ [x10])
    = array_body (take 16 bytes_00_to_10) +:+ array_body [x10].
Proof.
  apply (array_body_app 1 (take 16 bytes_00_to_10) [x10]). reflexivity.
Defined.
